(** * vinicius.dev: the site configuration and the components that read it

    A shallow embedding of [blog.config.ts] (the configuration object and
    its status-badge mapper [getStatus]), of [components/social-list.tsx]
    (the social-icon list) and of the home page, which maps over the same
    [socials] object.  JavaScript objects are kept as ordered property
    lists, because the components iterate them with [Object.keys]. *)

From Stdlib Require Import String Ascii List Bool Arith NArith Lia Permutation.
From Stdlib Require Import Sorted.
From ExtLib Require Import Structures.Monad Structures.MonadState.
From ExtLib Require Import Data.Monads.StateMonad.
Import ListNotations.
Import MonadNotation.
Local Open Scope string_scope.
Local Open Scope monad_scope.

(** ** JavaScript values *)

(** The values the modelled code handles: [undefined], strings, and the
    flat objects of string fields that [getStatus] builds, their
    properties in creation order. *)
Inductive value : Type :=
| Undefined
| Str (s : string)
| Obj (props : list (string * string)).

(** [ToBoolean]: [undefined] and the empty string are falsy, every object
    is truthy. *)
Definition truthy (v : value) : bool :=
  match v with
  | Undefined => false
  | Str s => negb (s =? "")
  | Obj _ => true
  end.

(** [v === lit] for a string literal [lit], as a [switch] case tests it. *)
Definition strict_eq_str (v : value) (lit : string) : bool :=
  match v with
  | Str s => s =? lit
  | _ => false
  end.

(** Lookup by key in a property list; the first binding wins. *)
Fixpoint assoc {A : Type} (k : string) (l : list (string * A)) : option A :=
  match l with
  | [] => None
  | (k', v) :: l' => if k' =? k then Some v else assoc k l'
  end.

(** ** Ordinary objects and their key order *)

Module JSObject.

(** An ordinary object with string-valued own enumerable properties, in
    the order in which the properties were created.  Keys are distinct
    in every object built by [literal]. *)
Definition t : Type := list (string * string).

(** The value of a decimal digit. *)
Definition digit (c : ascii) : option N :=
  let n := N_of_ascii c in
  if ((48 <=? n) && (n <=? 57))%N then Some (n - 48)%N else None.

Fixpoint decimal (acc : N) (s : string) : option N :=
  match s with
  | EmptyString => Some acc
  | String c s' =>
      match digit c with
      | Some d => decimal (acc * 10 + d)%N s'
      | None => None
      end
  end.

(** A canonical numeric string: decimal digits, no leading zero unless
    the string is ["0"] itself. *)
Definition canonical_numeric (s : string) : option N :=
  match s with
  | EmptyString => None
  | String c EmptyString => digit c
  | String c _ => if Ascii.eqb c "0" then None else decimal 0 s
  end.

(** An array index is a canonical numeric string below [2^32 - 1]. *)
Definition array_index (s : string) : option N :=
  match canonical_numeric s with
  | Some n => if (n <? 4294967295)%N then Some n else None
  | None => None
  end.

Definition is_array_index (s : string) : bool :=
  match array_index s with
  | Some _ => true
  | None => false
  end.

(** [CreateDataProperty]: an existing key keeps its place and takes the
    new value, a new key goes last. *)
Fixpoint define (k v : string) (o : t) : t :=
  match o with
  | [] => [(k, v)]
  | (k', v') :: o' =>
      if k' =? k then (k, v) :: o' else (k', v') :: define k v o'
  end.

(** One [key: value] entry of an object literal.  The entry
    [__proto__: value] creates no property, and with a string value it
    leaves the prototype alone as well. *)
Definition define_entry (o : t) (kv : string * string) : t :=
  if fst kv =? "__proto__" then o else define (fst kv) (snd kv) o.

(** Evaluation of an object literal with the entries [lit], left to
    right. *)
Definition literal (lit : list (string * string)) : t :=
  fold_left define_entry lit [].

(** [o[k]] for an own key; a miss is [undefined]. *)
Definition get (o : t) (k : string) : value :=
  match assoc k o with
  | Some v => Str v
  | None => Undefined
  end.

Fixpoint insert_by_index (x : string * N) (l : list (string * N))
  : list (string * N) :=
  match l with
  | [] => [x]
  | y :: l' =>
      if (snd x <=? snd y)%N then x :: l else y :: insert_by_index x l'
  end.

Definition sort_by_index (l : list (string * N)) : list (string * N) :=
  fold_right insert_by_index [] l.

(** The array-index keys of an object with their numbers, in creation
    order. *)
Fixpoint index_keys (o : t) : list (string * N) :=
  match o with
  | [] => []
  | (k, _) :: o' =>
      match array_index k with
      | Some n => (k, n) :: index_keys o'
      | None => index_keys o'
      end
  end.

(** The other keys, in creation order. *)
Definition string_keys (o : t) : list string :=
  filter (fun k => negb (is_array_index k)) (map fst o).

(** [Object.keys]: the array-index keys in ascending numeric order, then
    every other key in creation order. *)
Definition keys (o : t) : list string :=
  (map fst (sort_by_index (index_keys o)) ++ string_keys o)%list.

End JSObject.

(** ** blog.config.ts: project.getStatus *)

(** The badge returned for a recognised status. *)
Definition badge (variant text : string) : value :=
  Obj [("variant", variant); ("text", text)].

(** [getStatus]: the guard [if (!status) return {}] and then a [switch]
    with four cases and no [default]; falling out of the [switch] reaches
    the end of the arrow function, whose result is [undefined]. *)
Definition getStatus (status : value) : value :=
  if negb (truthy status) then Obj []
  else if strict_eq_str status "active" then badge "default" "ACTIVE"
  else if strict_eq_str status "dev" then badge "secondary" "DEV"
  else if strict_eq_str status "filed" then badge "outline" "FILED"
  else if strict_eq_str status "offline" then badge "destructive" "OFFLINE"
  else Undefined.

(** The four statuses the [switch] names. *)
Definition recognized_statuses : list string :=
  ["active"; "dev"; "filed"; "offline"].

Definition recognized (s : string) : bool :=
  existsb (String.eqb s) recognized_statuses.

(** ** blog.config.ts: the shape of siteData *)

Module Route.
Record t : Type := mk { name : string; value : string }.
End Route.

Module Header.
Record t : Type := mk { logo : string; title : string; routes : list Route.t }.
End Header.

Module Home.
(** [intro] holds the imported MDX component, kept here by its name. *)
Record t : Type := mk { title : string; intro : string; socials : JSObject.t }.
End Home.

Module Blog.
Record t : Type := mk { title : string; description : string }.
End Blog.

Module ProjectEntry.
Record t : Type := mk {
  name : string;
  description : string;
  href : string;
  github : string;
  status : string
}.
End ProjectEntry.

Module Project.
Record t : Type := mk {
  title : string;
  description : string;
  getStatus : value -> value;
  projects : list ProjectEntry.t
}.
End Project.

Module Giscus.
Record t : Type := mk {
  repo : string; repoId : string; category : string; categoryId : string;
  mapping : string; reactionsEnabled : string; emitMetadata : string;
  inputPosition : string; theme : string; lang : string; loading : string
}.
End Giscus.

Module Utterances.
Record t : Type := mk {
  src : string; repo : string; issue_term : string; theme : string;
  crossorigin : string; label : string; async : bool
}.
End Utterances.

Module Comment.
Record t : Type := mk {
  enabled : bool; engine : string; giscus : Giscus.t; utterances : Utterances.t
}.
End Comment.

Module Search.
Record t : Type := mk { enabled : bool; engine : string }.
End Search.

Module Footer.
Record t : Type := mk { isShow : bool; isShowPoweredBy : bool }.
End Footer.

Module SiteData.
Record t : Type := mk {
  author : string;
  title : string;
  description : string;
  theme : string;
  language : string;
  githubRepo : string;
  header : Header.t;
  home : Home.t;
  blog : Blog.t;
  project : Project.t;
  comment : Comment.t;
  search : Search.t;
  footer : Footer.t
}.
End SiteData.

(** ** blog.config.ts: the configured values *)

(** The entries of the [socials] literal, as written. *)
Definition socials_literal : list (string * string) :=
  [ ("email", "vinigurskiferraz@gmail.com");
    ("github", "https://github.com/viniciusf-dev");
    ("twitter", "");
    ("linkedin", "https://www.linkedin.com/in/viniciusgferraz/");
    ("facebook", "");
    ("instagram", "");
    ("youtube", "") ].

Definition projects : list ProjectEntry.t :=
  [ ProjectEntry.mk "Nebulla"
      "A lightweight, high-performance text embedding model implemented in Rust."
      "https://github.com/viniciusf-dev/nebulla"
      "https://github.com/viniciusf-dev/nebulla"
      "active";
    ProjectEntry.mk "Why It Sucks"
      "Discover why some games are so bad with the power of Generative AI."
      "https://why-it-sucks.vercel.app/"
      "https://github.com/viniciusf-dev/WhyItSucks"
      "active";
    ProjectEntry.mk "Poetries By Markov"
      "A sophisticated non-LLM-based poetry generator that uses Markov chains to create original poems."
      "https://github.com/viniciusf-dev/poetries-by-markov"
      "https://github.com/viniciusf-dev/poetries-by-markov"
      "active";
    ProjectEntry.mk "Smart.Notes"
      "A fullstack AI application that receives videoclasses in audio format and convert them into smart summaries and questions to improve study."
      "https://smart-notes-phi.vercel.app/"
      "https://github.com/ViniciusTheCoder/smart.notes"
      "dev";
    ProjectEntry.mk "LangchainGPT"
      "An chatbot interface integrated to OpenAI API to build your own base-knowledgment AI, made with React, Next, Node, Typescript & Tailwind."
      "https://github.com/ViniciusTheCoder/LangChainGPT"
      "https://github.com/ViniciusTheCoder/LangChainGPT"
      "filed";
    ProjectEntry.mk "MelodyMover"
      "An web interface to convert music playlists between different music apps."
      "https://github.com/ViniciusTheCoder/melody-mover"
      "https://github.com/ViniciusTheCoder/melody-mover"
      "dev";
    ProjectEntry.mk "AppKawa"
      "An mobile app to track customer returnals and organizate events."
      "https://github.com/ViniciusTheCoder/AppKawa"
      "https://github.com/ViniciusTheCoder/AppKawa"
      "filed";
    ProjectEntry.mk "Decoding Gamer Emotions"
      "Sentiment Analysis of Game Reviews with Large Language Models."
      "https://github.com/ViniciusTheCoder"
      ""
      "dev";
    ProjectEntry.mk "VegMaromba"
      "Website to check vegan supplements"
      "https://github.com/ViniciusTheCoder/VegMaromba"
      "https://github.com/ViniciusTheCoder/VegMaromba"
      "filed";
    ProjectEntry.mk "RentX"
      "Mobile app developed in React Native (available for iOS and Android) to rent cars"
      "https://github.com/ViniciusTheCoder/RentX"
      "https://github.com/ViniciusTheCoder/RentX"
      "filed";
    ProjectEntry.mk "RentX API"
      "API that runs as a backend in the RentX app, this API list all the cars available in the catalog"
      "https://github.com/ViniciusTheCoder/RentX-api"
      "https://github.com/ViniciusTheCoder/RentX-api"
      "filed";
    ProjectEntry.mk "GoFinance"
      "Mobile app developed in React Native (available for iOS and Android) to control your bank accounts and transactions"
      "https://github.com/ViniciusTheCoder/finances_mobile.app"
      "https://github.com/ViniciusTheCoder/finances_mobile.app"
      "filed" ].

Definition siteData : SiteData.t :=
  SiteData.mk
    "Vinicius Gurski Ferraz"
    "Vinicius.Dev"
    "A minimalist blog created with Next.js ,Shadcn-ui and Tailwind.css to publish my articles and projects"
    "dark"
    "en"
    "https://github.com/viniciusf-dev"
    (Header.mk "/logo.png" "Vinicius.Dev"
       [Route.mk "Blog" "/blog"; Route.mk "Projects" "/project"])
    (Home.mk "Welcome to Vinicius.Dev" "Intro" (JSObject.literal socials_literal))
    (Blog.mk "My Blog" "Some texts about stuff that I like")
    (Project.mk "Look what I've done" "Some small tools made by myself"
       getStatus projects)
    (Comment.mk false "giscus"
       (Giscus.mk "imyuanli/next-blog" "R_kgDOKTZ_kQ" "Announcements"
          "DIC_kwDOKTZ_kc4CfMXK" "pathname" "1" "0" "top" "light" "en" "lazy")
       (Utterances.mk "https://utteranc.es/client.js" "imyuanli/next-blog"
          "pathname" "github-light" "anonymous" "" true))
    (Search.mk true "cmdk")
    (Footer.mk true true).

(** ** What a component returns *)

(** A rendering description: a JSX element with its props and children,
    [undefined] (which React renders as nothing), or a value that is no
    element at all. *)
#[warnings="-register-all"]
Inductive node : Type :=
| Element (tag : string) (props : list (string * value)) (children : list node)
| Nothing
| Foreign (member : string).

Definition is_nothing (n : node) : bool :=
  match n with
  | Nothing => true
  | _ => false
  end.

(** The children React puts on the page: [undefined] entries of a child
    array leave no trace. *)
Definition rendered (children : list node) : list node :=
  filter (fun n => negb (is_nothing n)) children.

Definition children_of (n : node) : list node :=
  match n with
  | Element _ _ cs => cs
  | _ => []
  end.

Definition prop (n : node) (k : string) : value :=
  match n with
  | Element _ props _ =>
      match assoc k props with
      | Some v => v
      | None => Undefined
      end
  | _ => Undefined
  end.

Definition tag_is (t : string) (n : node) : bool :=
  match n with
  | Element t' _ _ => t' =? t
  | _ => false
  end.

(** The React key of an entry of a child array. *)
Definition key_of (n : node) : value := prop n "key".

(** [ToString], as a template literal applies it. *)
Definition to_string (v : value) : string :=
  match v with
  | Undefined => "undefined"
  | Str s => s
  | Obj _ => "[object Object]"
  end.

(** The members every object literal inherits from [Object.prototype]. *)
Definition Object_prototype_members : list string :=
  [ "constructor"; "hasOwnProperty"; "isPrototypeOf"; "propertyIsEnumerable";
    "toLocaleString"; "toString"; "valueOf"; "__proto__";
    "__defineGetter__"; "__defineSetter__"; "__lookupGetter__";
    "__lookupSetter__" ].

(** [table[item]] as a JSX child, for a table that maps keys to icon
    components (kept by name): the own entry when there is one, an
    inherited member for the names above, [undefined] otherwise. *)
Definition icon_child (table : list (string * string)) (item : string) : node :=
  match assoc item table with
  | Some c => Element c [] []
  | None =>
      if existsb (String.eqb item) Object_prototype_members
      then Foreign item
      else Nothing
  end.

(** ** components/social-list.tsx *)

Definition icons : list (string * string) :=
  [ ("email", "Mail"); ("github", "Github"); ("linkedin", "Linkedin") ].

(** The callback given to [Object.keys(socials).map]. *)
Definition SocialList_item (socials : JSObject.t) (item : string) : node :=
  if truthy (JSObject.get socials item) then
    Element "div"
      [ ("className", Str "hover:scale-110 duration-200"); ("key", Str item) ]
      [ if item =? "email"
        then Element "Link"
               [ ("href", Str ("mailto:" ++ to_string (JSObject.get socials item))) ]
               [ icon_child icons item ]
        else Element "Link"
               [ ("href", JSObject.get socials item) ]
               [ icon_child icons item ] ]
  else Nothing.

Definition SocialList_items (socials : JSObject.t) : list node :=
  map (SocialList_item socials) (JSObject.keys socials).

(** The link inside an entry of the list, and its [href]. *)
Definition link_of (entry : node) : node :=
  match children_of entry with
  | [l] => l
  | _ => Nothing
  end.

Definition href_of (entry : node) : value := prop (link_of entry) "href".

Definition icon_of (entry : node) : node :=
  match children_of (link_of entry) with
  | [i] => i
  | _ => Nothing
  end.

(** ** The home page *)

(** The home page's own icon table. *)
Definition home_icons : list (string * string) :=
  [ ("email", "Mail"); ("linkedin", "Linkedin") ].

(** The callback given to [Object.keys(socials).map] on the home page. *)
Definition Home_item (socials : JSObject.t) (item : string) : node :=
  if truthy (JSObject.get socials item) then Element "div" [] [] else Nothing.

Definition Home_items (socials : JSObject.t) : list node :=
  map (Home_item socials) (JSObject.keys socials).

(** Every [Link] element and every icon component at or below a node. *)
Fixpoint count_tag (tags : list string) (n : node) : nat :=
  match n with
  | Element t _ cs =>
      (if existsb (String.eqb t) tags then 1 else 0)
      + fold_right (fun c acc => count_tag tags c + acc) 0 cs
  | _ => 0
  end.

Definition hyperlinks (n : node) : nat := count_tag ["Link"; "a"] n.

Definition icon_components (n : node) : nat :=
  count_tag ["Mail"; "Github"; "Linkedin"] n.

(** ** Components as readers of the module-level configuration *)

(** [siteData] is a module-level object that every importer shares, so a
    component is a computation over that store: it returns its rendering
    description together with the store it leaves behind. *)
Definition Config : Type -> Type := state SiteData.t.

Section Components.

(** [cn] of [lib/utils], which joins class names: a base string and the
    conditional classes with their flags. *)
Variable cn : string -> list (string * bool) -> string.

(** The element [SocialList] returns for a given [socials] object. *)
Definition SocialList_view (isFooter : bool) (socials : JSObject.t) : node :=
  Element "div"
    [ ("className",
       Str (cn "flex items-center space-x-8"
              [ ("mt-8", negb isFooter); ("scale-75", isFooter) ])) ]
    (SocialList_items socials).

(** [SocialList]: [const {home: {socials}} = siteData], then the view. *)
Definition SocialList (isFooter : bool) : Config node :=
  socials <- gets (fun d => Home.socials (SiteData.home d)) ;;
  ret (SocialList_view isFooter socials).

End Components.

(** The element [Home] returns for the [home] record.  [home] has no
    [description] property, so that binding is [undefined]. *)
Definition Home_view (home : Home.t) : node :=
  Element "Fragment" []
    [ Element "Title"
        [ ("title", Str (Home.title home)); ("description", Undefined) ] [];
      Element "Intro" [] [];
      Element "div" [ ("className", Str "mt-8 flex items-center space-x-4") ]
        (Home_items (Home.socials home)) ].

(** [Home], with the module-level icon table it closes over as an
    argument. *)
Definition Home_with (table : list (string * string)) : Config node :=
  home <- gets SiteData.home ;;
  ret (Home_view home).

Definition Home : Config node := Home_with home_icons.

(** [project.getStatus] as an operation: the arrow function takes its
    argument and touches nothing else. *)
Definition getStatus_op (status : value) : Config value :=
  ret (getStatus status).

(** ** app/layout.tsx *)

Definition metadata : Config (list (string * value)) :=
  d <- get ;;
  ret [ ("title", Str (SiteData.title d));
        ("description", Str (SiteData.description d)) ].

Definition RootLayout_view (children : node) : node :=
  Element "html" [ ("lang", Str "en") ]
    [ Element "body" [ ("className", Str "min-h-screen font-mono") ]
        [ Element "ProviderTheme" []
            [ Element "Header" [] [];
              Element "Separator" [] [];
              Element "main" [ ("className", Str "container my-12") ]
                [ Element "div"
                    [ ("className",
                       Str "prose md:prose-lg min-w-full w-full dark:prose-invert") ]
                    [ children; Element "Analytics" [] [] ] ];
              Element "Footer" [] [];
              Element "BackToTop" [] [] ] ] ].

Definition RootLayout (children : node) : Config node :=
  ret (RootLayout_view children).

(** ** Content documents *)

Module Post.

(** The front matter of a post; [draft] is [None] when the field is not
    written. *)
Record t : Type := mk {
  title : string;
  summary : string;
  date : string;
  tags : list string;
  draft : option bool
}.

(** The draft flag with its default. *)
Definition is_draft (p : t) : bool :=
  match draft p with
  | Some b => b
  | None => false
  end.

(** Modelled from the spec: the published listing, whose code (the
    content-collection definition and the blog index page) is not among
    the sources at hand.  The spec excludes a post whose [draft] is true
    and includes one whose [draft] is false or absent. *)
Definition published (posts : list t) : list t :=
  filter (fun p => negb (is_draft p)) posts.

End Post.

(** The front matter of the posts of the repository. *)
Definition posts : list Post.t :=
  [ Post.mk "Context Caching in LLMs"
      "Cache input tokens and consult them for subsequent requests."
      "2024-07-05"
      ["Context Caching"; "Gemini"; "Tokens"; "Prompt"]
      (Some false);
    Post.mk "Python ThreadPoolExecutor and Concurrency: The Complete Guide"
      "ThreadPoolExecutor is part of Python's `concurrent.futures` module, which was introduced in Python 3.2. It provides a high-level interface for asynchronously executing callables."
      "2025-04-03"
      ["Parallel Programming"; "I/O Bound"; "CPU Bound"]
      (Some false);
    Post.mk "Rust for Blazing-Fast LLM Applications"
      "Python's great for prototyping and has amazing libraries like Hugging Face's Transformers, but when performance matters, Rust shines."
      "2025-04-09"
      ["Rust"; "GenerativeAI"; "Concurrency"; "LLMs"]
      (Some false);
    Post.mk "Uncovering The Needle"
      "In the LLM world, 'needle in a haystack' refers to the challenge of finding specific, accurate information within the vast amount of data these models have been trained on."
      "2025-03-10"
      ["AI Engineering"; "LLM Accuracy"; "Needle In a Haystack";
       "Machine Learning"; "Generative AI"; "Benchmarks"]
      (Some false);
    Post.mk "How to improve your RAG performance?"
      "When building a RAG application, it's very common to face low accuracy at the beginning. To overcome this issue, techniques such as prompt engineering, filtered search, score extractor and more are mandatory to reach performances above 80%."
      "2024-10-23"
      ["RAG Performance"; "Accuracy"; "Prompt Engineering"; "Benchmarks"]
      (Some false) ].

(** ** Vocabulary of the statements *)

(** The entries of a child array that carry the key [k]. *)
Definition entries_with_key (k : string) (l : list node) : list node :=
  filter (fun n => strict_eq_str (key_of n) k) l.

(** A property of an object is populated when its value is a non-empty
    string; an absent key reads as [undefined] and is not. *)
Definition populated (o : JSObject.t) (k : string) : bool :=
  truthy (JSObject.get o k).

(** The keys of a literal in the order in which they are first written. *)
Fixpoint first_occurrences (seen ks : list string) : list string :=
  match ks with
  | [] => []
  | k :: ks' =>
      if existsb (String.eqb k) seen
      then first_occurrences seen ks'
      else k :: first_occurrences (k :: seen) ks'
  end.

Definition insertion_order (lit : list (string * string)) : list string :=
  first_occurrences [] (map fst lit).

(** The value a literal gives a key: the one written last. *)
Definition written_value (lit : list (string * string)) (k : string) : value :=
  match assoc k (rev lit) with
  | Some v => Str v
  | None => Undefined
  end.

(** A plain key is neither an array index nor [__proto__]; every name
    that is written as an identifier other than [__proto__] is plain. *)
Definition plain_key (k : string) : bool :=
  negb (JSObject.is_array_index k) && negb (k =? "__proto__").

(** The platform keys of the [socials] object. *)
Definition platform_keys : list string :=
  [ "email"; "github"; "linkedin"; "twitter"; "facebook"; "instagram";
    "youtube" ].

(** The children of the row of placeholders, which is the third child of
    the fragment [Home] returns. *)
Definition Home_socials_row (page : node) : list node :=
  children_of (nth 2 (children_of page) Nothing).

(** The [div] without props or children that the home page emits. *)
Definition empty_div : node := Element "div" [] [].

(** A string field of the object a mapper returned, if it is an object
    that has the field. *)
Definition badge_field (k : string) (v : value) : option string :=
  match v with
  | Obj props => assoc k props
  | _ => None
  end.

(** ASCII upper case, letter by letter. *)
Definition is_lower_ascii (c : ascii) : bool :=
  let n := N_of_ascii c in ((97 <=? n) && (n <=? 122))%N.

Definition is_upper_ascii (c : ascii) : bool :=
  let n := N_of_ascii c in ((65 <=? n) && (n <=? 90))%N.

Definition upper_ascii (c : ascii) : ascii :=
  if is_lower_ascii c then ascii_of_N (N_of_ascii c - 32) else c.

Fixpoint upper (s : string) : string :=
  match s with
  | EmptyString => EmptyString
  | String c s' => String (upper_ascii c) (upper s')
  end.

Fixpoint has_upper (s : string) : bool :=
  match s with
  | EmptyString => false
  | String c s' => is_upper_ascii c || has_upper s'
  end.

(** The number of an array-index key. *)
Definition index_value (k : string) : N :=
  match JSObject.array_index k with
  | Some n => n
  | None => 0%N
  end.

(** The order in which the array-index keys are listed. *)
Definition by_index (a b : string * N) : Prop := (snd a <= snd b)%N.

(** * Properties *)

(** ** The status-badge mapper *)

(** C1: on each of the four statuses active, dev, filed and offline,
    [getStatus] returns the documented variant and text. *)
Theorem getStatus_recognized :
  getStatus (Str "active") = Obj [("variant", "default"); ("text", "ACTIVE")]
  /\ getStatus (Str "dev") = Obj [("variant", "secondary"); ("text", "DEV")]
  /\ getStatus (Str "filed") = Obj [("variant", "outline"); ("text", "FILED")]
  /\ getStatus (Str "offline") = Obj [("variant", "destructive"); ("text", "OFFLINE")].
Proof. repeat split. Qed.

(** An absent or empty status takes the guard and gets the empty object. *)
Lemma getStatus_absent :
  getStatus Undefined = Obj [] /\ getStatus (Str "") = Obj [].
Proof. split; reflexivity. Qed.

Lemma recognized_false (s : string) :
  recognized s = false ->
  (s =? "active") = false /\ (s =? "dev") = false
  /\ (s =? "filed") = false /\ (s =? "offline") = false.
Proof.
  unfold recognized, recognized_statuses. cbn [existsb].
  rewrite !orb_false_iff. tauto.
Qed.

(** A non-empty string outside the four cases falls out of the [switch]:
    the result is [undefined], not an object. *)
Lemma getStatus_falls_through (s : string) :
  s <> "" -> recognized s = false -> getStatus (Str s) = Undefined.
Proof.
  intros Hne Hrec.
  apply recognized_false in Hrec as (Ha & Hd & Hf & Ho).
  unfold getStatus, truthy, strict_eq_str.
  apply String.eqb_neq in Hne. rewrite Hne, Ha, Hd, Hf, Ho. reflexivity.
Qed.

(** C2: at the unrecognised status ["archived"] the mapper returns
    [undefined]; the empty object is what only the absent and the empty
    status get. *)
Theorem getStatus_archived_undefined :
  recognized "archived" = false
  /\ getStatus (Str "archived") = Undefined
  /\ getStatus (Str "archived") <> Obj []
  /\ getStatus Undefined = Obj []
  /\ getStatus (Str "") = Obj [].
Proof. repeat split; discriminate. Qed.

(** C10: every configured project has one of the four recognised
    statuses, and the configured [getStatus] maps it to a badge with a
    variant and a text. *)
Theorem projects_status_recognized :
  Forall
    (fun p =>
       recognized (ProjectEntry.status p) = true
       /\ exists variant text,
            Project.getStatus (SiteData.project siteData)
              (Str (ProjectEntry.status p))
            = Obj [("variant", variant); ("text", text)])
    (Project.projects (SiteData.project siteData)).
Proof.
  cbn [Project.projects Project.getStatus SiteData.project siteData projects].
  repeat (constructor; [split; [reflexivity | do 2 eexists; reflexivity] |]).
  constructor.
Qed.

(** ** The published listing *)

(** C7: a post is in the published listing exactly when it is among the
    posts and its [draft] is not true; so [draft: true] excludes it, and
    [draft: false] or no [draft] field includes it. *)
Theorem published_excludes_drafts (ps : list Post.t) (p : Post.t) :
  (Post.draft p = Some true -> ~ In p (Post.published ps))
  /\ (Post.draft p = Some false -> In p ps -> In p (Post.published ps))
  /\ (Post.draft p = None -> In p ps -> In p (Post.published ps)).
Proof.
  unfold Post.published. rewrite !filter_In. unfold Post.is_draft.
  repeat split; try assumption.
  - intros H [_ Hd]. rewrite H in Hd. discriminate.
  - rewrite H. reflexivity.
  - rewrite H. reflexivity.
Qed.

Lemma published_excludes_drafts_witness :
  let p := Post.mk "t" "s" "2024-01-01" [] None in
  let q := Post.mk "u" "s" "2024-01-02" [] (Some true) in
  In p (Post.published [q; p]) /\ ~ In q (Post.published [q; p]).
Proof.
  intros p q. split.
  - apply (proj2 (proj2 (published_excludes_drafts [q; p] p))).
    + reflexivity.
    + right. left. reflexivity.
  - apply (proj1 (published_excludes_drafts [q; p] q)). reflexivity.
Defined.

(** The listing keeps the order of the posts, and every post of the
    repository is in it. *)
Lemma published_posts : Post.published posts = posts.
Proof. reflexivity. Qed.

(** ** The configuration as a store *)

Section Store.

Variable cn : string -> list (string * bool) -> string.

(** C8: run from any configuration [d], the social-icon list, the status
    mapper, the layout with its metadata and the home page leave [d] as
    it was, and what each returns is a function of the part of [d] it
    reads. *)
Theorem operations_preserve_config
    (d : SiteData.t) (isFooter : bool) (status : value) (children : node) :
  runState (SocialList cn isFooter) d
  = (SocialList_view cn isFooter (Home.socials (SiteData.home d)), d)
  /\ runState (getStatus_op status) d = (getStatus status, d)
  /\ runState (RootLayout children) d = (RootLayout_view children, d)
  /\ runState metadata d
     = ([ ("title", Str (SiteData.title d));
          ("description", Str (SiteData.description d)) ], d)
  /\ runState Home d = (Home_view (SiteData.home d), d).
Proof. repeat split. Qed.

End Store.

(** ** Facts about objects and their keys *)

Section ObjectFacts.

Import JSObject.

Lemma assoc_not_In {A : Type} (k : string) (l : list (string * A)) :
  ~ In k (map fst l) -> assoc k l = None.
Proof.
  induction l as [| [k' v] l IH]; cbn; intros H; [reflexivity |].
  destruct (String.eqb_spec k' k) as [-> | Hne].
  - exfalso. apply H. now left.
  - apply IH. intros Hin. apply H. now right.
Qed.

Lemma assoc_In {A : Type} (k : string) (l : list (string * A)) :
  In k (map fst l) -> exists v, assoc k l = Some v.
Proof.
  induction l as [| [k' v] l IH]; cbn; intros H; [contradiction |].
  destruct (String.eqb_spec k' k) as [-> | Hne].
  - now exists v.
  - destruct H as [H | H]; [contradiction | now apply IH].
Qed.

Lemma assoc_app_last {A : Type} (k k' : string) (v : A) (l : list (string * A)) :
  assoc k (l ++ [(k', v)])%list
  = match assoc k l with
    | Some x => Some x
    | None => if k' =? k then Some v else None
    end.
Proof.
  induction l as [| [k1 v1] l IH]; cbn; [reflexivity |].
  destruct (k1 =? k); [reflexivity | exact IH].
Qed.

(** [define] writes the value and moves no other key. *)
Lemma assoc_define (k k' v : string) (o : t) :
  assoc k (define k' v o) = if k' =? k then Some v else assoc k o.
Proof.
  induction o as [| [k1 v1] o IH]; cbn; [reflexivity |].
  destruct (String.eqb_spec k1 k') as [-> | Hne]; cbn.
  - destruct (k' =? k); reflexivity.
  - rewrite IH. destruct (String.eqb_spec k' k) as [-> | Hne'].
    + apply String.eqb_neq in Hne. now rewrite Hne.
    + reflexivity.
Qed.

Lemma define_keys_old (k v : string) (o : t) :
  In k (map fst o) -> map fst (define k v o) = map fst o.
Proof.
  induction o as [| [k1 v1] o IH]; cbn; intros H; [contradiction |].
  destruct (String.eqb_spec k1 k) as [-> | Hne]; cbn; [reflexivity |].
  destruct H as [H | H]; [contradiction |]. now rewrite IH.
Qed.

Lemma define_keys_new (k v : string) (o : t) :
  ~ In k (map fst o) -> map fst (define k v o) = (map fst o ++ [k])%list.
Proof.
  induction o as [| [k1 v1] o IH]; cbn; intros H; [reflexivity |].
  destruct (String.eqb_spec k1 k) as [-> | Hne]; cbn.
  - exfalso. apply H. now left.
  - rewrite IH; [reflexivity |]. intros Hin. apply H. now right.
Qed.

Lemma define_NoDup (k v : string) (o : t) :
  NoDup (map fst o) -> NoDup (map fst (define k v o)).
Proof.
  intros Hnd. destruct (in_dec string_dec k (map fst o)) as [Hin | Hnin].
  - now rewrite define_keys_old.
  - rewrite define_keys_new by assumption.
    apply NoDup_app; [assumption | repeat constructor; intros [] | ].
    intros x Hx [<- | []]. contradiction.
Qed.

Lemma fold_define_NoDup (lit : list (string * string)) (o : t) :
  NoDup (map fst o) -> NoDup (map fst (fold_left define_entry lit o)).
Proof.
  revert o. induction lit as [| [k v] lit IH]; cbn; intros o Hnd; [assumption |].
  apply IH. unfold define_entry; cbn.
  destruct (k =? "__proto__"); [assumption | now apply define_NoDup].
Qed.

(** The keys of an object built by a literal are distinct. *)
Lemma literal_NoDup (lit : list (string * string)) :
  NoDup (map fst (literal lit)).
Proof. apply fold_define_NoDup. constructor. Qed.

Lemma insert_by_index_perm (x : string * N) (l : list (string * N)) :
  Permutation (insert_by_index x l) (x :: l).
Proof.
  induction l as [| y l IH]; cbn; [reflexivity |].
  destruct (snd x <=? snd y)%N; [reflexivity |].
  rewrite IH. apply perm_swap.
Qed.

Lemma sort_by_index_perm (l : list (string * N)) :
  Permutation (sort_by_index l) l.
Proof.
  induction l as [| x l IH]; cbn; [constructor |].
  rewrite insert_by_index_perm. now constructor.
Qed.

Lemma index_keys_filter (o : t) :
  map fst (index_keys o) = filter is_array_index (map fst o).
Proof.
  induction o as [| [k v] o IH]; cbn; [reflexivity |].
  unfold is_array_index. destruct (array_index k); cbn; now rewrite IH.
Qed.

Lemma filter_split_perm {A : Type} (f : A -> bool) (l : list A) :
  Permutation (filter f l ++ filter (fun x => negb (f x)) l)%list l.
Proof.
  induction l as [| x l IH]; cbn; [constructor |].
  destruct (f x); cbn.
  - now constructor.
  - symmetry. apply Permutation_cons_app. now symmetry.
Qed.

(** [Object.keys] lists exactly the own keys. *)
Lemma keys_perm (o : t) : Permutation (keys o) (map fst o).
Proof.
  unfold keys, string_keys.
  rewrite (Permutation_map fst (sort_by_index_perm (index_keys o))).
  rewrite index_keys_filter. apply filter_split_perm.
Qed.

Lemma keys_NoDup (o : t) : NoDup (map fst o) -> NoDup (keys o).
Proof.
  intros H. eapply Permutation_NoDup; [symmetry; apply keys_perm | exact H].
Qed.

Lemma keys_In (o : t) (k : string) : In k (keys o) <-> In k (map fst o).
Proof.
  split; apply Permutation_in; [| symmetry]; apply keys_perm.
Qed.

(** With no array-index key, [Object.keys] is the creation order. *)
Lemma keys_creation_order (o : t) :
  forallb (fun k => negb (is_array_index k)) (map fst o) = true ->
  keys o = map fst o.
Proof.
  intros H. unfold keys, string_keys.
  assert (Hidx : index_keys o = []).
  { induction o as [| [k v] o IH]; cbn in *; [reflexivity |].
    apply andb_prop in H as [Hk Ho]. unfold is_array_index in Hk.
    destruct (array_index k); [discriminate | now apply IH]. }
  rewrite Hidx. cbn.
  induction (map fst o) as [| k ks IH]; cbn in *; [reflexivity |].
  apply andb_prop in H as [Hk Hks]. rewrite Hk. f_equal. now apply IH.
Qed.

End ObjectFacts.

(** ** The social-icon list *)

Section SocialListFacts.

Variable cn : string -> list (string * bool) -> string.

Lemma SocialList_item_populated (o : JSObject.t) (k : string) :
  populated o k = true ->
  SocialList_item o k
  = Element "div"
      [ ("className", Str "hover:scale-110 duration-200"); ("key", Str k) ]
      [ Element "Link"
          [ ("href",
             if k =? "email"
             then Str ("mailto:" ++ to_string (JSObject.get o k))
             else JSObject.get o k) ]
          [ icon_child icons k ] ].
Proof.
  unfold populated, SocialList_item. intros ->.
  destruct (k =? "email"); reflexivity.
Qed.

Lemma SocialList_item_unpopulated (o : JSObject.t) (k : string) :
  populated o k = false -> SocialList_item o k = Nothing.
Proof. unfold populated, SocialList_item. now intros ->. Qed.

(** The rendered entries are keyed by the populated keys, in the order
    of the key list that was mapped over. *)
Lemma rendered_items_keys (o : JSObject.t) (ks : list string) :
  map key_of (rendered (map (SocialList_item o) ks))
  = map Str (filter (populated o) ks).
Proof.
  unfold rendered.
  induction ks as [| k ks IH]; [reflexivity |].
  cbn [map filter]. destruct (populated o k) eqn:Hk.
  - rewrite (SocialList_item_populated _ _ Hk).
    cbn [is_nothing negb map]. f_equal. exact IH.
  - rewrite (SocialList_item_unpopulated _ _ Hk). exact IH.
Qed.

Lemma key_of_item (o : JSObject.t) (k : string) :
  populated o k = true -> key_of (SocialList_item o k) = Str k.
Proof. intros H. now rewrite (SocialList_item_populated _ _ H). Qed.

Lemma rendered_items_count (o : JSObject.t) (k : string) (ks : list string) :
  length (entries_with_key k (rendered (map (SocialList_item o) ks)))
  = if populated o k then count_occ string_dec ks k else 0.
Proof.
  unfold rendered, entries_with_key.
  induction ks as [| a ks IH]; [now destruct (populated o k) |].
  cbn [map filter count_occ]. destruct (populated o a) eqn:Ha.
  - assert (Hn : is_nothing (SocialList_item o a) = false)
      by now rewrite (SocialList_item_populated _ _ Ha).
    rewrite Hn. cbn [negb filter]. rewrite (key_of_item _ _ Ha).
    cbn [strict_eq_str].
    destruct (String.eqb_spec a k) as [-> | Hne]; cbn [length].
    + rewrite IH, Ha. now destruct (string_dec k k).
    + rewrite IH. destruct (populated o k); [| reflexivity].
      now destruct (string_dec a k).
  - rewrite (SocialList_item_unpopulated _ _ Ha). cbn [is_nothing negb].
    rewrite IH. destruct (populated o k) eqn:Hk; [| reflexivity].
    destruct (string_dec a k) as [-> | Hne]; [congruence | reflexivity].
Qed.

Lemma populated_In_keys (o : JSObject.t) (k : string) :
  populated o k = true -> In k (JSObject.keys o).
Proof.
  unfold populated, JSObject.get. intros H. apply keys_In.
  destruct (in_dec string_dec k (map fst o)) as [Hin | Hnin]; [assumption |].
  rewrite (assoc_not_In _ _ Hnin) in H. discriminate.
Qed.

(** C3: for the object of any [socials] literal, the rendered list has
    one entry with key [k] when [k] holds a non-empty string and none
    when the value is empty or the key absent, and its entries are keyed
    by the populated keys and nothing else. *)
Theorem SocialList_one_entry_per_populated_key
    (lit : list (string * string)) (isFooter : bool) (k : string) :
  let o := JSObject.literal lit in
  let shown := rendered (children_of (SocialList_view cn isFooter o)) in
  length (entries_with_key k shown) = (if populated o k then 1 else 0)
  /\ map key_of shown = map Str (filter (populated o) (JSObject.keys o)).
Proof.
  cbn zeta. cbn [SocialList_view children_of]. unfold SocialList_items.
  split; [| apply rendered_items_keys].
  rewrite rendered_items_count.
  destruct (populated (JSObject.literal lit) k) eqn:Hk; [| reflexivity].
  apply NoDup_count_occ'.
  - apply keys_NoDup, literal_NoDup.
  - now apply populated_In_keys.
Qed.

End SocialListFacts.

(** ** Links and icons of the social-icon list *)

Section SocialListLinks.

Variable cn : string -> list (string * bool) -> string.

Lemma populated_get (o : JSObject.t) (k v : string) :
  JSObject.get o k = Str v -> v <> "" -> populated o k = true.
Proof.
  unfold populated. intros -> Hne. cbn.
  apply String.eqb_neq in Hne. now rewrite Hne.
Qed.

Lemma populated_item_rendered (o : JSObject.t) (isFooter : bool) (k : string) :
  populated o k = true ->
  In (SocialList_item o k) (rendered (children_of (SocialList_view cn isFooter o))).
Proof.
  intros Hk. cbn [SocialList_view children_of].
  unfold rendered, SocialList_items. apply filter_In. split.
  - apply in_map. now apply populated_In_keys.
  - now rewrite (SocialList_item_populated _ _ Hk).
Qed.

(** C4: a populated key has its entry in the rendered list, the entry
    holds a [Link], and the link's [href] is [mailto:] followed by the
    value when the key is [email] and the value itself for any other
    key. *)
Theorem SocialList_href
    (lit : list (string * string)) (isFooter : bool) (k v : string) :
  JSObject.get (JSObject.literal lit) k = Str v ->
  v <> "" ->
  let o := JSObject.literal lit in
  let entry := SocialList_item o k in
  In entry (rendered (children_of (SocialList_view cn isFooter o)))
  /\ tag_is "Link" (link_of entry) = true
  /\ (k = "email" -> href_of entry = Str ("mailto:" ++ v))
  /\ (k <> "email" -> href_of entry = Str v).
Proof.
  intros Hget Hne o entry. subst o entry.
  pose proof (populated_get _ _ _ Hget Hne) as Hk.
  split; [now apply populated_item_rendered |].
  rewrite (SocialList_item_populated _ _ Hk), Hget.
  split; [reflexivity |]. split.
  - intros ->. reflexivity.
  - intros Hk'. apply String.eqb_neq in Hk'. unfold href_of, link_of.
    cbn [children_of prop assoc]. rewrite Hk'. reflexivity.
Qed.

(** A key with no entry in the icon table and no namesake on
    [Object.prototype] gets no icon. *)
Lemma icon_child_missing (table : list (string * string)) (k : string) :
  assoc k table = None ->
  existsb (String.eqb k) Object_prototype_members = false ->
  icon_child table k = Nothing.
Proof. unfold icon_child. now intros -> ->. Qed.

(** C6: the icon table of the social-icon list has the keys email,
    github and linkedin, and a populated twitter, facebook, instagram or
    youtube key is rendered as an entry whose link points to the value
    and has no icon inside. *)
Theorem SocialList_missing_icons :
  map fst icons = ["email"; "github"; "linkedin"]
  /\ forall (lit : list (string * string)) (isFooter : bool) (k v : string),
       In k ["twitter"; "facebook"; "instagram"; "youtube"] ->
       JSObject.get (JSObject.literal lit) k = Str v ->
       v <> "" ->
       let o := JSObject.literal lit in
       let entry := SocialList_item o k in
       In entry (rendered (children_of (SocialList_view cn isFooter o)))
       /\ entry
          = Element "div"
              [ ("className", Str "hover:scale-110 duration-200");
                ("key", Str k) ]
              [ Element "Link" [ ("href", Str v) ] [ Nothing ] ]
       /\ hyperlinks entry = 1
       /\ icon_components entry = 0.
Proof.
  split; [reflexivity |].
  intros lit isFooter k v Hin Hget Hne o entry. subst o entry.
  pose proof (populated_get _ _ _ Hget Hne) as Hk.
  split; [now apply populated_item_rendered |].
  assert (Hentry : SocialList_item (JSObject.literal lit) k
            = Element "div"
                [ ("className", Str "hover:scale-110 duration-200");
                  ("key", Str k) ]
                [ Element "Link" [ ("href", Str v) ] [ Nothing ] ]).
  { rewrite (SocialList_item_populated _ _ Hk), Hget.
    cbn in Hin. destruct Hin as [<- | [<- | [<- | [<- | []]]]]; reflexivity. }
  rewrite Hentry. repeat split.
Qed.

End SocialListLinks.

Lemma SocialList_href_witness :
  href_of (SocialList_item (JSObject.literal socials_literal) "email")
  = Str "mailto:vinigurskiferraz@gmail.com"
  /\ href_of (SocialList_item (JSObject.literal socials_literal) "github")
     = Str "https://github.com/viniciusf-dev".
Proof.
  split.
  - apply (SocialList_href (fun base _ => base) socials_literal false "email"
             "vinigurskiferraz@gmail.com");
      [reflexivity | discriminate | reflexivity].
  - apply (SocialList_href (fun base _ => base) socials_literal false "github"
             "https://github.com/viniciusf-dev");
      [reflexivity | discriminate | discriminate].
Defined.

Lemma SocialList_missing_icons_witness :
  let lit := [("email", "a@b.com"); ("twitter", "https://x.com/v")] in
  SocialList_item (JSObject.literal lit) "twitter"
  = Element "div"
      [ ("className", Str "hover:scale-110 duration-200");
        ("key", Str "twitter") ]
      [ Element "Link" [ ("href", Str "https://x.com/v") ] [ Nothing ] ].
Proof.
  intros lit.
  apply (proj2 (SocialList_missing_icons (fun base _ => base))
           lit false "twitter" "https://x.com/v").
  - left. reflexivity.
  - reflexivity.
  - discriminate.
Defined.


(** ** Order of the rendered entries *)

Section LiteralOrder.

Import JSObject.

Lemma existsb_eqb_In (k : string) (l : list string) :
  existsb (String.eqb k) l = true <-> In k l.
Proof.
  rewrite existsb_exists. split.
  - intros (x & Hx & Heq). apply String.eqb_eq in Heq. now subst.
  - intros H. exists k. split; [assumption | apply String.eqb_refl].
Qed.

(** Only the membership of [seen] matters. *)
Lemma first_occurrences_ext (ks s1 s2 : list string) :
  (forall x, In x s1 <-> In x s2) ->
  first_occurrences s1 ks = first_occurrences s2 ks.
Proof.
  revert s1 s2. induction ks as [| k ks IH]; intros s1 s2 H; [reflexivity |].
  cbn [first_occurrences].
  assert (Hb : existsb (String.eqb k) s1 = existsb (String.eqb k) s2).
  { apply eq_true_iff_eq. rewrite !existsb_eqb_In. apply H. }
  rewrite Hb. destruct (existsb (String.eqb k) s2).
  - now apply IH.
  - f_equal. apply IH. intros x. cbn. now rewrite H.
Qed.

Lemma first_occurrences_incl (ks seen : list string) :
  incl (first_occurrences seen ks) ks.
Proof.
  revert seen. induction ks as [| k ks IH]; intros seen x; cbn; [tauto |].
  destruct (existsb (String.eqb k) seen).
  - intros H. right. now apply (IH seen).
  - intros [H | H]; [now left | right; now apply (IH (k :: seen))].
Qed.

Lemma plain_define_entry (o : t) (k v : string) :
  plain_key k = true -> define_entry o (k, v) = define k v o.
Proof.
  unfold plain_key, define_entry. cbn [fst snd]. intros H.
  apply andb_prop in H as [_ H]. apply negb_true_iff in H. now rewrite H.
Qed.

(** A literal with plain keys creates its properties in the order in
    which the keys are first written. *)
Lemma fold_define_keys (lit : list (string * string)) (o : t) :
  forallb plain_key (map fst lit) = true ->
  map fst (fold_left define_entry lit o)
  = (map fst o ++ first_occurrences (map fst o) (map fst lit))%list.
Proof.
  revert o. induction lit as [| [k v] lit IH]; intros o H.
  - cbn. now rewrite app_nil_r.
  - cbn [map fst forallb] in H. apply andb_prop in H as [Hk Hlit].
    cbn [fold_left map fst first_occurrences].
    rewrite (plain_define_entry _ _ _ Hk), (IH _ Hlit).
    destruct (existsb (String.eqb k) (map fst o)) eqn:Hseen.
    + apply existsb_eqb_In in Hseen. now rewrite define_keys_old.
    + assert (Hnin : ~ In k (map fst o)).
      { intros Hin. apply existsb_eqb_In in Hin. congruence. }
      rewrite (define_keys_new _ _ _ Hnin), <- app_assoc. cbn [app].
      do 2 f_equal. apply first_occurrences_ext.
      intros x. rewrite in_app_iff. cbn. tauto.
Qed.

Lemma literal_keys (lit : list (string * string)) :
  forallb plain_key (map fst lit) = true ->
  map fst (literal lit) = insertion_order lit.
Proof. intros H. unfold literal. now rewrite fold_define_keys. Qed.

(** The value of a key after a literal is the one written last. *)
Lemma fold_define_assoc (lit : list (string * string)) (o : t) (k : string) :
  forallb plain_key (map fst lit) = true ->
  assoc k (fold_left define_entry lit o)
  = match assoc k (rev lit) with
    | Some v => Some v
    | None => assoc k o
    end.
Proof.
  revert o. induction lit as [| [k1 v1] lit IH]; intros o H; [reflexivity |].
  cbn [map fst forallb] in H. apply andb_prop in H as [Hk Hlit].
  cbn [fold_left rev].
  rewrite (plain_define_entry _ _ _ Hk), (IH _ Hlit), assoc_app_last, assoc_define.
  destruct (assoc k (rev lit)); [reflexivity |].
  destruct (k1 =? k); reflexivity.
Qed.

Lemma literal_get (lit : list (string * string)) (k : string) :
  forallb plain_key (map fst lit) = true ->
  get (literal lit) k = written_value lit k.
Proof.
  intros H. unfold get, written_value, literal.
  rewrite (fold_define_assoc _ _ _ H). cbn [assoc].
  destruct (assoc k (rev lit)); reflexivity.
Qed.

Lemma literal_keys_order (lit : list (string * string)) :
  forallb plain_key (map fst lit) = true ->
  keys (literal lit) = insertion_order lit.
Proof.
  intros H. rewrite keys_creation_order; [now apply literal_keys |].
  rewrite (literal_keys _ H). apply forallb_forall. intros x Hx.
  apply first_occurrences_incl in Hx.
  rewrite forallb_forall in H. specialize (H x Hx).
  unfold plain_key in H. now apply andb_prop in H as [H _].
Qed.

(** Every platform key is plain. *)
Lemma platform_keys_plain : forallb plain_key platform_keys = true.
Proof. reflexivity. Qed.

End LiteralOrder.

Section SocialListOrder.

Variable cn : string -> list (string * bool) -> string.

(** C5: for a [socials] literal whose keys are plain names, as the
    platform keys are, the rendered entries follow the order in which the
    keys are first written in the literal, restricted to the keys whose
    value is non-empty. *)
Theorem SocialList_order (lit : list (string * string)) (isFooter : bool) :
  forallb plain_key (map fst lit) = true ->
  map key_of
    (rendered (children_of (SocialList_view cn isFooter (JSObject.literal lit))))
  = map Str
      (filter (fun k => truthy (written_value lit k)) (insertion_order lit)).
Proof.
  intros H. cbn [SocialList_view children_of]. unfold SocialList_items.
  rewrite rendered_items_keys, (literal_keys_order _ H). f_equal.
  apply filter_ext. intros k. unfold populated. now rewrite literal_get.
Qed.

End SocialListOrder.

Lemma SocialList_order_witness :
  map key_of
    (rendered
       (children_of
          (SocialList_view (fun base _ => base) false
             (JSObject.literal socials_literal))))
  = [Str "email"; Str "github"; Str "linkedin"].
Proof.
  exact (SocialList_order (fun base _ => base) socials_literal false eq_refl).
Defined.

(** With array-index keys the engine lists those first, by number, so the
    order is then not the order of writing. *)
Example keys_numeric_first :
  JSObject.keys
    (JSObject.literal [("b", "x"); ("10", "y"); ("2", "z"); ("b", "w"); ("01", "q")])
  = ["2"; "10"; "b"; "01"].
Proof. reflexivity. Qed.

(** ** The home page *)

Lemma rendered_Home_items (o : JSObject.t) (ks : list string) :
  rendered (map (Home_item o) ks)
  = map (fun _ => empty_div) (filter (populated o) ks).
Proof.
  unfold rendered, Home_item, populated.
  induction ks as [| k ks IH]; [reflexivity |].
  cbn [map filter]. destruct (truthy (JSObject.get o k)); cbn [is_nothing negb map].
  - now rewrite IH.
  - exact IH.
Qed.

(** C9: for the object of any [socials] literal, the home page renders
    one empty [div] per populated key, which holds no hyperlink and no
    icon; its icon table has the keys email and linkedin only, and the
    page is the same whatever that table holds. *)
Theorem Home_placeholders (title intro : string) (lit : list (string * string)) :
  let o := JSObject.literal lit in
  let page := Home_view (Home.mk title intro o) in
  rendered (Home_socials_row page)
  = map (fun _ => empty_div) (filter (populated o) (JSObject.keys o))
  /\ empty_div = Element "div" [] []
  /\ hyperlinks empty_div = 0
  /\ icon_components empty_div = 0
  /\ map fst home_icons = ["email"; "linkedin"]
  /\ forall table, Home_with table = Home.
Proof.
  cbn zeta. split; [| repeat split].
  unfold Home_socials_row, Home_view, Home_items.
  cbn [children_of nth Home.socials]. apply rendered_Home_items.
Qed.

(** On the configured [socials] the home page shows three empty
    placeholders, for email, github and linkedin. *)
Example Home_configured :
  rendered (Home_socials_row (evalState Home siteData))
  = [empty_div; empty_div; empty_div].
Proof. reflexivity. Qed.

(** On the configured [socials] the social-icon list shows the mail
    link and the two profile links, each with its icon. *)
Example SocialList_configured :
  rendered (SocialList_items (Home.socials (SiteData.home siteData)))
  = [ Element "div"
        [ ("className", Str "hover:scale-110 duration-200"); ("key", Str "email") ]
        [ Element "Link" [ ("href", Str "mailto:vinigurskiferraz@gmail.com") ]
            [ Element "Mail" [] [] ] ];
      Element "div"
        [ ("className", Str "hover:scale-110 duration-200"); ("key", Str "github") ]
        [ Element "Link" [ ("href", Str "https://github.com/viniciusf-dev") ]
            [ Element "Github" [] [] ] ];
      Element "div"
        [ ("className", Str "hover:scale-110 duration-200"); ("key", Str "linkedin") ]
        [ Element "Link"
            [ ("href", Str "https://www.linkedin.com/in/viniciusgferraz/") ]
            [ Element "Linkedin" [] [] ] ] ].
Proof. reflexivity. Qed.

(** The example of the specification: github is empty and is left out. *)
Example SocialList_spec_example :
  map href_of
    (rendered
       (SocialList_items
          (JSObject.literal
             [("email", "a@b.com"); ("github", ""); ("linkedin", "https://x")])))
  = [Str "mailto:a@b.com"; Str "https://x"].
Proof. reflexivity. Qed.

(** ** More on the status-badge mapper *)

Lemma recognized_true (s : string) :
  recognized s = true ->
  s = "active" \/ s = "dev" \/ s = "filed" \/ s = "offline".
Proof.
  unfold recognized, recognized_statuses. cbn [existsb].
  rewrite !orb_true_iff, !String.eqb_eq. intuition discriminate.
Qed.

Lemma getStatus_badge_recognized (status : value) (variant text : string) :
  getStatus status = badge variant text ->
  exists s, status = Str s /\ recognized s = true.
Proof.
  destruct status as [| s | props]; [discriminate | | discriminate].
  intros H. exists s. split; [reflexivity |].
  destruct (recognized s) eqn:Hrec; [reflexivity |].
  destruct (String.eqb_spec s "") as [-> | Hne]; [discriminate |].
  rewrite (getStatus_falls_through s Hne Hrec) in H. discriminate.
Qed.

(** X1: the three outcomes of [getStatus] and the inputs that reach each:
    the empty object for a falsy status, a badge for exactly the four
    recognised strings, [undefined] for every other truthy value. *)
Theorem getStatus_outcomes (status : value) :
  (getStatus status = Obj [] <-> truthy status = false)
  /\ ((exists variant text, getStatus status = badge variant text)
      <-> exists s, status = Str s /\ recognized s = true)
  /\ (getStatus status = Undefined
      <-> truthy status = true
          /\ forall s, status = Str s -> recognized s = false).
Proof.
  split; [| split].
  - split.
    + destruct status as [| s | props]; [reflexivity | | discriminate].
      destruct (String.eqb_spec s "") as [-> | Hne]; [reflexivity |].
      destruct (recognized s) eqn:Hrec.
      * apply recognized_true in Hrec as [-> | [-> | [-> | ->]]]; discriminate.
      * rewrite (getStatus_falls_through s Hne Hrec). discriminate.
    + unfold getStatus. now intros ->.
  - split.
    + intros (variant & text & H). now apply getStatus_badge_recognized in H.
    + intros (s & -> & Hrec).
      apply recognized_true in Hrec as [-> | [-> | [-> | ->]]];
        do 2 eexists; reflexivity.
  - split.
    + intros H. destruct status as [| s | props];
        [discriminate | | split; [reflexivity | discriminate]].
      destruct (String.eqb_spec s "") as [-> | Hne]; [discriminate |].
      split.
      * cbn. apply String.eqb_neq in Hne. now rewrite Hne.
      * intros s' [= <-]. destruct (recognized s) eqn:Hrec; [| reflexivity].
        apply recognized_true in Hrec as [-> | [-> | [-> | ->]]]; discriminate.
    + intros [Ht Hrec]. destruct status as [| s | props];
        [discriminate | | reflexivity].
      apply getStatus_falls_through; [| now apply Hrec].
      intros ->. discriminate.
Qed.

(** X2: distinct recognised statuses get distinct badges: the variant alone
    tells the status, and so does the text. *)
Theorem getStatus_injective (s1 s2 : string) :
  recognized s1 = true ->
  recognized s2 = true ->
  badge_field "variant" (getStatus (Str s1))
  = badge_field "variant" (getStatus (Str s2))
  \/ badge_field "text" (getStatus (Str s1))
     = badge_field "text" (getStatus (Str s2)) ->
  s1 = s2.
Proof.
  intros H1 H2.
  apply recognized_true in H1 as [-> | [-> | [-> | ->]]];
    apply recognized_true in H2 as [-> | [-> | [-> | ->]]];
    cbn; intros [H | H]; try reflexivity; discriminate.
Qed.

Lemma getStatus_injective_witness : "dev" = "dev".
Proof.
  apply (getStatus_injective "dev" "dev"); [reflexivity | reflexivity |].
  left. reflexivity.
Defined.

(** X3: the text of a badge is the status in upper case. *)
Theorem getStatus_text_upper (s : string) :
  recognized s = true ->
  badge_field "text" (getStatus (Str s)) = Some (upper s).
Proof.
  intros H. apply recognized_true in H as [-> | [-> | [-> | ->]]]; reflexivity.
Qed.

Lemma getStatus_text_upper_witness :
  badge_field "text" (getStatus (Str "filed")) = Some (upper "filed").
Proof. apply (getStatus_text_upper "filed"). reflexivity. Defined.

(** X4: the match is case-sensitive: a status with an upper-case letter
    anywhere gets no badge at all. *)
Theorem getStatus_case_sensitive (s : string) :
  has_upper s = true -> getStatus (Str s) = Undefined.
Proof.
  intros H. apply getStatus_falls_through.
  - intros ->. discriminate.
  - destruct (recognized s) eqn:Hrec; [| reflexivity].
    apply recognized_true in Hrec as [-> | [-> | [-> | ->]]]; discriminate.
Qed.

Lemma getStatus_case_sensitive_witness : getStatus (Str "Active") = Undefined.
Proof. apply (getStatus_case_sensitive "Active"). reflexivity. Defined.

(** ** More on the social-icon list *)

Section SocialListShape.

Variable cn : string -> list (string * bool) -> string.

(** Every rendered entry comes from a populated key. *)
Lemma rendered_item_inv (o : JSObject.t) (ks : list string) (e : node) :
  In e (rendered (map (SocialList_item o) ks)) ->
  exists k, In k ks /\ populated o k = true /\ e = SocialList_item o k.
Proof.
  unfold rendered. rewrite filter_In, in_map_iff.
  intros [(k & <- & Hin) Hn]. exists k. repeat split; [assumption |].
  destruct (populated o k) eqn:Hk; [reflexivity |].
  rewrite (SocialList_item_unpopulated _ _ Hk) in Hn. discriminate.
Qed.

Lemma populated_value (o : JSObject.t) (k : string) :
  populated o k = true -> exists v, JSObject.get o k = Str v /\ v <> "".
Proof.
  unfold populated. destruct (JSObject.get o k) as [| v | props] eqn:Hget.
  - discriminate.
  - cbn. intros H. exists v. split; [reflexivity |].
    intros ->. discriminate.
  - unfold JSObject.get in Hget. destruct (assoc k o); discriminate.
Qed.

(** What [icons[item]] can be. *)
Lemma icon_child_cases (k : string) :
  (k = "email" /\ icon_child icons k = Element "Mail" [] [])
  \/ (k = "github" /\ icon_child icons k = Element "Github" [] [])
  \/ (k = "linkedin" /\ icon_child icons k = Element "Linkedin" [] [])
  \/ (assoc k icons = None
      /\ (icon_child icons k = Foreign k \/ icon_child icons k = Nothing)).
Proof.
  unfold icon_child, icons. cbn [assoc].
  destruct (String.eqb_spec "email" k) as [<- | _]; [now left |].
  destruct (String.eqb_spec "github" k) as [<- | _]; [now right; left |].
  destruct (String.eqb_spec "linkedin" k) as [<- | _];
    [now right; right; left |].
  right; right; right. split; [reflexivity |].
  destruct (existsb (String.eqb k) Object_prototype_members); [now left | now right].
Qed.

Lemma NoDup_map_Str (l : list string) : NoDup l -> NoDup (map Str l).
Proof.
  induction 1 as [| k l Hnin _ IH]; cbn; constructor; [| exact IH].
  rewrite in_map_iff. intros (k' & [= ->] & Hin). contradiction.
Qed.

(** X5: the React keys of the rendered entries are pairwise distinct. *)
Theorem SocialList_keys_distinct (lit : list (string * string)) (isFooter : bool) :
  NoDup
    (map key_of
       (rendered (children_of (SocialList_view cn isFooter (JSObject.literal lit))))).
Proof.
  cbn [SocialList_view children_of]. unfold SocialList_items.
  rewrite rendered_items_keys.
  apply NoDup_map_Str, NoDup_filter, keys_NoDup, literal_NoDup.
Qed.

(** X6: every rendered entry is a [div] with the hover classes that holds
    one [Link] with a non-empty [href], one hyperlink in all and at most
    one icon. *)
Theorem SocialList_entry_shape (o : JSObject.t) (isFooter : bool) :
  Forall
    (fun e =>
       tag_is "div" e = true
       /\ prop e "className" = Str "hover:scale-110 duration-200"
       /\ tag_is "Link" (link_of e) = true
       /\ (exists h, href_of e = Str h /\ h <> "")
       /\ hyperlinks e = 1
       /\ icon_components e <= 1)
    (rendered (children_of (SocialList_view cn isFooter o))).
Proof.
  apply Forall_forall. intros e He.
  cbn [SocialList_view children_of] in He. unfold SocialList_items in He.
  apply rendered_item_inv in He as (k & _ & Hk & ->).
  rewrite (SocialList_item_populated _ _ Hk).
  destruct (populated_value _ _ Hk) as (v & Hget & Hne). rewrite Hget.
  repeat split.
  - unfold href_of, link_of. cbn [children_of prop assoc String.eqb Ascii.eqb Bool.eqb].
    destruct (k =? "email"); eexists; (split; [reflexivity |]);
      [discriminate | exact Hne].
  - destruct (icon_child_cases k)
      as [[_ ->] | [[_ ->] | [[_ ->] | [_ [-> | ->]]]]]; reflexivity.
  - destruct (icon_child_cases k)
      as [[_ ->] | [[_ ->] | [[_ ->] | [_ [-> | ->]]]]]; cbn; lia.
Qed.

(** X7: an entry has an icon exactly when its key is in the icon table, and
    the icon is then the component the table gives for the key. *)
Theorem SocialList_icon_iff_in_table (o : JSObject.t) (k : string) :
  populated o k = true ->
  icon_components (SocialList_item o k)
  = (if existsb (String.eqb k) (map fst icons) then 1 else 0)
  /\ forall c, assoc k icons = Some c ->
               icon_of (SocialList_item o k) = Element c [] [].
Proof.
  intros Hk. rewrite (SocialList_item_populated _ _ Hk).
  destruct (icon_child_cases k)
    as [[-> H] | [[-> H] | [[-> H] | [Hnone H]]]].
  - split; [reflexivity |]. intros c [= <-]. reflexivity.
  - split; [reflexivity |]. intros c [= <-]. reflexivity.
  - split; [reflexivity |]. intros c [= <-]. reflexivity.
  - split; [| intros c Hc; congruence].
    assert (Hex : existsb (String.eqb k) (map fst icons) = false).
    { destruct (existsb (String.eqb k) (map fst icons)) eqn:Hex; [| reflexivity].
      apply existsb_eqb_In, assoc_In in Hex as (c & Hc). congruence. }
    rewrite Hex. destruct H as [-> | ->]; reflexivity.
Qed.

Lemma SocialList_icon_iff_in_table_witness :
  icon_of (SocialList_item (JSObject.literal socials_literal) "github")
  = Element "Github" [] [].
Proof.
  apply (SocialList_icon_iff_in_table
           (JSObject.literal socials_literal) "github"); reflexivity.
Defined.

(** X8: a populated key that names a member of [Object.prototype] reads that
    member out of the icon table: the link's child is then no element
    and no icon, although the table has no entry for the key. *)
Theorem SocialList_inherited_member (o : JSObject.t) (k : string) :
  populated o k = true ->
  In k Object_prototype_members ->
  assoc k icons = None
  /\ icon_of (SocialList_item o k) = Foreign k
  /\ icon_components (SocialList_item o k) = 0
  /\ hyperlinks (SocialList_item o k) = 1.
Proof.
  intros Hk Hin. rewrite (SocialList_item_populated _ _ Hk).
  cbn in Hin.
  repeat (destruct Hin as [<- | Hin]; [repeat split |]).
  contradiction.
Qed.

Lemma SocialList_inherited_member_witness :
  icon_of (SocialList_item (JSObject.literal [("constructor", "https://x")])
             "constructor")
  = Foreign "constructor".
Proof.
  apply (SocialList_inherited_member
           (JSObject.literal [("constructor", "https://x")]) "constructor").
  - reflexivity.
  - left. reflexivity.
Defined.

Lemma filter_unpopulated (o : JSObject.t) :
  (forall k, populated o k = false) ->
  filter (populated o) (JSObject.keys o) = [].
Proof.
  intros H. induction (JSObject.keys o) as [| k ks IH]; [reflexivity |].
  cbn [filter]. now rewrite H.
Qed.

(** X9: nothing is rendered exactly when no key is populated; in
    particular an empty [socials] object gives an empty row. *)
Theorem SocialList_empty_iff (o : JSObject.t) (isFooter : bool) :
  rendered (children_of (SocialList_view cn isFooter o)) = []
  <-> forall k, populated o k = false.
Proof.
  cbn [SocialList_view children_of]. unfold SocialList_items. split.
  - intros H k. destruct (populated o k) eqn:Hk; [| reflexivity].
    exfalso.
    assert (Hin : In (Str k)
                    (map key_of (rendered (map (SocialList_item o) (JSObject.keys o))))).
    { rewrite rendered_items_keys. apply in_map, filter_In.
      split; [now apply populated_In_keys | assumption]. }
    rewrite H in Hin. exact Hin.
  - intros H. apply (map_eq_nil key_of). rewrite rendered_items_keys.
    rewrite (filter_unpopulated o H). reflexivity.
Qed.

End SocialListShape.

(** ** The home page beside the social-icon list *)

Section HomeAndSocialList.

Variable cn : string -> list (string * bool) -> string.

(** X10: whatever the configuration holds, the home page shows as many
    placeholders as the social-icon list shows entries. *)
Theorem Home_as_many_as_SocialList (d : SiteData.t) (isFooter : bool) :
  length (rendered (Home_socials_row (evalState Home d)))
  = length (rendered (children_of (evalState (SocialList cn isFooter) d))).
Proof.
  cbn [evalState runState Home Home_with SocialList gets bind ret fst
       Monad_state MonadState_state get].
  cbn. unfold Home_socials_row, Home_items, SocialList_items.
  cbn [children_of nth Home_view].
  rewrite rendered_Home_items, length_map.
  rewrite <- (length_map key_of), rendered_items_keys, length_map.
  reflexivity.
Qed.

End HomeAndSocialList.

(** ** Array-index keys *)

Section IndexKeys.

Import JSObject.

Variable cn : string -> list (string * bool) -> string.

Lemma insert_by_index_sorted (x : string * N) (l : list (string * N)) :
  StronglySorted by_index l -> StronglySorted by_index (insert_by_index x l).
Proof.
  induction 1 as [| y l Hs IH Hy]; cbn.
  - repeat constructor.
  - destruct (N.leb_spec (snd x) (snd y)) as [Hle | Hlt].
    + constructor; [now constructor |]. constructor; [exact Hle |].
      eapply Forall_impl; [| exact Hy]. unfold by_index. intros z Hz. lia.
    + constructor; [exact IH |].
      eapply Permutation_Forall; [symmetry; apply insert_by_index_perm |].
      constructor; [unfold by_index; lia | exact Hy].
Qed.

Lemma sort_by_index_sorted (l : list (string * N)) :
  StronglySorted by_index (sort_by_index l).
Proof.
  induction l as [| x l IH]; cbn; [constructor |].
  now apply insert_by_index_sorted.
Qed.

Lemma index_keys_value (o : t) :
  Forall (fun kn => index_value (fst kn) = snd kn) (index_keys o).
Proof.
  induction o as [| [k v] o IH]; cbn; [constructor |].
  destruct (array_index k) eqn:Hk; [| exact IH].
  constructor; [| exact IH]. unfold index_value. cbn. now rewrite Hk.
Qed.

Lemma sorted_keys_by_value (l : list (string * N)) :
  Forall (fun kn => index_value (fst kn) = snd kn) l ->
  StronglySorted by_index l ->
  StronglySorted (fun a b => (index_value a <= index_value b)%N) (map fst l).
Proof.
  intros Hv Hs. induction Hs as [| x l Hs IH Hx]; cbn; [constructor |].
  inversion Hv as [| ? ? Hvx Hvl]; subst.
  constructor; [now apply IH |].
  apply Forall_map. rewrite Forall_forall in *.
  intros y Hy. unfold by_index in Hx. rewrite Hvx, (Hvl y Hy). now apply Hx.
Qed.

Lemma unhidden_define_entry (o : t) (k v : string) :
  (k =? "__proto__") = false -> define_entry o (k, v) = define k v o.
Proof. unfold define_entry. cbn [fst snd]. now intros ->. Qed.

(** Without a [__proto__] entry, a literal creates its properties in the
    order in which the keys are first written, array indices included. *)
Lemma fold_define_keys_written (lit : list (string * string)) (o : t) :
  forallb (fun k => negb (k =? "__proto__")) (map fst lit) = true ->
  map fst (fold_left define_entry lit o)
  = (map fst o ++ first_occurrences (map fst o) (map fst lit))%list.
Proof.
  revert o. induction lit as [| [k v] lit IH]; intros o H.
  - cbn. now rewrite app_nil_r.
  - cbn [map fst forallb] in H. apply andb_prop in H as [Hk Hlit].
    apply negb_true_iff in Hk.
    cbn [fold_left map fst first_occurrences].
    rewrite (unhidden_define_entry _ _ _ Hk), (IH _ Hlit).
    destruct (existsb (String.eqb k) (map fst o)) eqn:Hseen.
    + apply existsb_eqb_In in Hseen. now rewrite define_keys_old.
    + assert (Hnin : ~ In k (map fst o)).
      { intros Hin. apply existsb_eqb_In in Hin. congruence. }
      rewrite (define_keys_new _ _ _ Hnin), <- app_assoc. cbn [app].
      do 2 f_equal. apply first_occurrences_ext.
      intros x. rewrite in_app_iff. cbn. tauto.
Qed.

(** X11: when a [socials] literal has array-index keys, the entries of those
    keys come first, by ascending number, and the entries of the other
    keys follow in the order of writing. *)
Theorem SocialList_index_keys_first (lit : list (string * string)) (isFooter : bool) :
  forallb (fun k => negb (k =? "__proto__")) (map fst lit) = true ->
  let o := literal lit in
  exists idx,
    Permutation idx (filter is_array_index (insertion_order lit))
    /\ StronglySorted (fun a b => (index_value a <= index_value b)%N) idx
    /\ map key_of (rendered (children_of (SocialList_view cn isFooter o)))
       = map Str
           (filter (populated o)
              (idx ++ filter (fun k => negb (is_array_index k))
                        (insertion_order lit))%list).
Proof.
  intros H o.
  assert (Hkeys : map fst o = insertion_order lit).
  { unfold o, literal. now rewrite fold_define_keys_written. }
  exists (map fst (sort_by_index (index_keys o))). split; [| split].
  - rewrite (Permutation_map fst (sort_by_index_perm (index_keys o))).
    now rewrite index_keys_filter, Hkeys.
  - apply sorted_keys_by_value; [| apply sort_by_index_sorted].
    eapply Permutation_Forall;
      [symmetry; apply sort_by_index_perm | apply index_keys_value].
  - cbn [SocialList_view children_of]. unfold SocialList_items.
    rewrite rendered_items_keys. unfold keys, string_keys.
    now rewrite Hkeys.
Qed.

End IndexKeys.

Lemma SocialList_index_keys_first_witness :
  let lit := [("b", "x"); ("10", "y"); ("2", "z")] in
  exists idx,
    Permutation idx (filter JSObject.is_array_index (insertion_order lit))
    /\ StronglySorted (fun a b => (index_value a <= index_value b)%N) idx
    /\ map key_of
         (rendered
            (children_of
               (SocialList_view (fun base _ => base) false (JSObject.literal lit))))
       = map Str
           (filter (populated (JSObject.literal lit))
              (idx ++ filter (fun k => negb (JSObject.is_array_index k))
                        (insertion_order lit))%list).
Proof.
  intros lit.
  exact (SocialList_index_keys_first (fun base _ => base) lit false eq_refl).
Defined.

(** On that literal the written order b, 10, 2 is shown as 2, 10, b. *)
Example SocialList_numeric_keys :
  map key_of
    (rendered
       (SocialList_items (JSObject.literal [("b", "x"); ("10", "y"); ("2", "z")])))
  = [Str "2"; Str "10"; Str "b"].
Proof. reflexivity. Qed.
